(** * packmate/log: the logger factory of [source/log.js]

    A shallow embedding of the module exported by [source/log.js] and the
    properties its specification states about it.

    The module is JavaScript, so the embedding starts with the part of the
    language the module relies on: the values it is handed, truthiness
    ([!x]), [typeof], string conversion inside template literals (which can
    throw), [Object.keys], property reads and [JSON.stringify].  The
    functions of the module follow, under their own names, over a small monad
    that records the console writes and the calls of [fetch] in the order
    they happen and carries the exception a call ends with. *)

From Stdlib Require Import String Ascii List ZArith Lia Bool DecimalString.
Import ListNotations.

Local Open Scope list_scope.
Local Open Scope string_scope.

#[local] Set Warnings "-register-all".

(* ================================================================== *)
(** * JavaScript values *)
(* ================================================================== *)

Module JS.

(** An integer that a number holds exactly and prints as its numeral:
    one of magnitude below 2^53. *)
Record integer := {
  int_value : Z;
  int_safe : (Z.abs int_value <? 9007199254740992)%Z = true
}.

(** The values the logger is handed: messages, data payloads, notes,
    requests, errors and the identity fields of the configuration.

    - [Num n] is the number whose value is the integer [n]; [NaN] is the
      one other number the development needs, being falsy.  Fractions,
      larger numbers and infinities have no term.
    - [Str s] is a string; a character is an [ascii].
    - [Arr l] is an array without holes.
    - [Obj props] is the plain object obtained by defining the properties
      [props] from left to right on an empty object, as an object literal
      with computed keys or [JSON.parse] does: defining a key a second time
      replaces its value and keeps its place.  Its prototype is
      [Object.prototype].
    - [Err message stack] is what [new Error(message)] returns, with no
      property added or changed since: [message] and [stack] are own
      properties, neither of them enumerable.

    Functions, symbols, big integers, accessor properties, cyclic
    structures and instances of other classes have no term. *)
Inductive value : Type :=
| Undefined
| Null
| Bool (b : bool)
| Num (n : integer)
| NaN
| Str (s : string)
| Arr (elements : list value)
| Obj (props : list (string * value))
| Err (message stack : string).

(** The number written [z], for a numeral [z] below 2^53. *)
Notation "'Int' z" := (Num {| int_value := z; int_safe := eq_refl |})
  (at level 9, z at level 9).

(** [!!v] *)
Definition truthy (v : value) : bool :=
  match v with
  | Undefined | Null | NaN => false
  | Bool b => b
  | Num n => negb (Z.eqb (int_value n) 0)
  | Str s => negb (String.eqb s "")
  | Arr _ | Obj _ | Err _ _ => true
  end.

Definition falsy (v : value) : bool := negb (truthy v).

Inductive type_tag := t_undefined | t_object | t_boolean | t_number | t_string.

(** [typeof v] *)
Definition typeof (v : value) : type_tag :=
  match v with
  | Undefined => t_undefined
  | Null | Arr _ | Obj _ | Err _ _ => t_object
  | Bool _ => t_boolean
  | Num _ | NaN => t_number
  | Str _ => t_string
  end.

(** [typeof v === t] *)
Definition type_eqb (a b : type_tag) : bool :=
  match a, b with
  | t_undefined, t_undefined | t_object, t_object | t_boolean, t_boolean
  | t_number, t_number | t_string, t_string => true
  | _, _ => false
  end.

(** ** Strings *)

(** [l.join(sep)] on a list of strings. *)
Definition join (sep : string) (l : list string) : string := String.concat sep l.

(** [s.split(sep)] for a separator of one character. *)
Fixpoint split (sep : ascii) (s : string) : list string :=
  match s with
  | EmptyString => [EmptyString]
  | String c rest =>
      if Ascii.eqb c sep then EmptyString :: split sep rest
      else match split sep rest with
           | [] => [String c EmptyString]
           | piece :: pieces => String c piece :: pieces
           end
  end.

(** The decimal numeral of an integer, which is how
    [Number.prototype.toString] and [JSON.stringify] print a number that
    holds one. *)
Definition decimal (n : integer) : string :=
  NilZero.string_of_int (Z.to_int (int_value n)).

(** The key under which an array or a string holds its element number
    [i]: the numeral of [i]. *)
Definition index_key (i : nat) : string :=
  NilZero.string_of_uint (Nat.to_uint i).

(** ** String conversion

    [ToString], the conversion a template literal applies to each of its
    substitutions; [None] stands for the [TypeError] it throws when the
    value cannot be converted.

    A plain object is converted by its [toString] method and, failing that,
    by [valueOf].  With no own [toString] it inherits the one of
    [Object.prototype] and prints as [[object Object]].  An own [toString]
    is a value of the model, so it is no function: it is passed over, the
    [valueOf] that comes next gives no primitive either (an own one is no
    function, the inherited one returns the object), and the conversion
    throws.  An array prints its elements separated by commas, with nothing
    for [undefined] and [null], and throws when one of the others does.  An
    [Error] prints its name and message. *)
Fixpoint ToString (v : value) : option string :=
  match v with
  | Undefined => Some "undefined"
  | Null => Some "null"
  | Bool true => Some "true"
  | Bool false => Some "false"
  | Num n => Some (decimal n)
  | NaN => Some "NaN"
  | Str s => Some s
  | Arr l =>
      option_map (join ",")
        ((fix each (l : list value) : option (list string) :=
            match l with
            | [] => Some []
            | x :: rest =>
                match match x with
                      | Undefined | Null => Some ""
                      | _ => ToString x
                      end, each rest with
                | Some text, Some texts => Some (text :: texts)
                | _, _ => None
                end
            end) l)
  | Obj props =>
      if existsb (String.eqb "toString") (map fst props) then None
      else Some "[object Object]"
  | Err message _ =>
      Some (if String.eqb message "" then "Error" else "Error: " ++ message)
  end.

(** The value converts: a template literal that holds it does not throw. *)
Definition convertible (v : value) : bool :=
  match ToString v with Some _ => true | None => false end.

(** ** Own keys and property reads *)

Definition is_digit (c : ascii) : bool :=
  let n := nat_of_ascii c in (48 <=? n)%nat && (n <=? 57)%nat.

Fixpoint digits_value (acc : N) (s : string) : option N :=
  match s with
  | EmptyString => Some acc
  | String c rest =>
      if is_digit c
      then digits_value (acc * 10 + (N.of_nat (nat_of_ascii c) - 48))%N rest
      else None
  end.

(** A key is an array index when it is the canonical decimal numeral of an
    integer from 0 to 2^32 - 2. *)
Definition array_index (k : string) : option N :=
  match k with
  | EmptyString => None
  | String c rest =>
      if Ascii.eqb c "0" && negb (String.eqb rest "") then None
      else match digits_value 0 k with
           | Some n => if (n <? 4294967295)%N then Some n else None
           | None => None
           end
  end.

Definition is_array_index (k : string) : bool :=
  match array_index k with Some _ => true | None => false end.

(** The keys of a list, each kept at its first place. *)
Fixpoint first_occurrences (ks : list string) : list string :=
  match ks with
  | [] => []
  | k :: rest =>
      k :: filter (fun k' => negb (String.eqb k' k)) (first_occurrences rest)
  end.

Fixpoint insert_index (k : string) (n : N) (sorted : list (string * N))
  : list (string * N) :=
  match sorted with
  | [] => [(k, n)]
  | (k', n') :: rest =>
      if (n <=? n')%N then (k, n) :: sorted
      else (k', n') :: insert_index k n rest
  end.

Fixpoint sort_indices (ks : list string) : list (string * N) :=
  match ks with
  | [] => []
  | k :: rest =>
      match array_index k with
      | Some n => insert_index k n (sort_indices rest)
      | None => sort_indices rest
      end
  end.

(** The order in which an ordinary object lists its own string keys: the
    array indices in ascending numeric order, then every other key in the
    order of its creation. *)
Definition own_key_order (ks : list string) : list string :=
  (map fst (sort_indices ks) ++ filter (fun k => negb (is_array_index k)) ks)%list.

(** [Object.keys(v)], for a [v] that is neither [undefined] nor [null]. *)
Definition Object_keys (v : value) : list string :=
  match v with
  | Obj props => own_key_order (first_occurrences (map fst props))
  | Arr l => map index_key (seq 0 (List.length l))
  | Str s => map index_key (seq 0 (String.length s))
  | _ => []
  end.

(** The value a key ends up with once every definition has been applied:
    that of its last definition. *)
Fixpoint lookup (k : string) (props : list (string * value)) : option value :=
  match props with
  | [] => None
  | (k', v) :: rest =>
      match lookup k rest with
      | Some later => Some later
      | None => if String.eqb k' k then Some v else None
      end
  end.

(** [v[k]] and [v.k], for a [v] that is neither [undefined] nor [null] (the
    module guards each of its reads by a truthiness test) and a key that no
    prototype defines, which holds of the keys the module reads by name
    ([message], [stack], [body], [method], [url]) and of the own keys that
    [Object.keys] returns. *)
Definition Get (v : value) (k : string) : value :=
  match v with
  | Obj props =>
      match lookup k props with Some x => x | None => Undefined end
  | Arr l =>
      match array_index k with
      | Some i => nth (N.to_nat i) l Undefined
      | None => Undefined
      end
  | Str s =>
      match array_index k with
      | Some i =>
          match String.get (N.to_nat i) s with
          | Some c => Str (String c EmptyString)
          | None => Undefined
          end
      | None => Undefined
      end
  | Err message stack =>
      if String.eqb k "message" then Str message
      else if String.eqb k "stack" then Str stack
      else Undefined
  | _ => Undefined
  end.

(** ** [JSON.stringify] *)

Definition dquote : string := String "034"%char EmptyString.
Definition backslash : string := String "092"%char EmptyString.

Definition hex_digit (n : nat) : ascii :=
  if (n <? 10)%nat then ascii_of_nat (48 + n) else ascii_of_nat (87 + n).

(** One character inside a JSON string literal. *)
Definition escape_char (c : ascii) : string :=
  let n := nat_of_ascii c in
  if (n =? 34)%nat then backslash ++ dquote
  else if (n =? 92)%nat then backslash ++ backslash
  else if (n =? 8)%nat then backslash ++ "b"
  else if (n =? 9)%nat then backslash ++ "t"
  else if (n =? 10)%nat then backslash ++ "n"
  else if (n =? 12)%nat then backslash ++ "f"
  else if (n =? 13)%nat then backslash ++ "r"
  else if (n <? 32)%nat
       then backslash ++ "u00"
            ++ String (hex_digit (n / 16)) (String (hex_digit (n mod 16)) "")
  else String c "".

Fixpoint escape (s : string) : string :=
  match s with
  | EmptyString => EmptyString
  | String c rest => escape_char c ++ escape rest
  end.

Definition QuoteJSONString (s : string) : string := dquote ++ escape s ++ dquote.

(** The members of a serialized object, in the order of its own keys: a
    member whose value has no serialization is left out. *)
Fixpoint members (ks : list string) (texts : list (string * option string))
  : list string :=
  match ks with
  | [] => []
  | k :: rest =>
      let text :=
        fold_left (fun found kt => if String.eqb (fst kt) k then snd kt else found)
                  texts None in
      match text with
      | Some t => (QuoteJSONString k ++ ":" ++ t) :: members rest texts
      | None => members rest texts
      end
  end.

(** [JSON.stringify(v)]; [None] stands for the result [undefined].  A
    property whose value is [undefined] is left out of its object, an
    [undefined] inside an array is written [null], [NaN] is written [null],
    and an [Error] has no enumerable property to write. *)
Fixpoint JSON_stringify (v : value) : option string :=
  match v with
  | Undefined => None
  | Null | NaN => Some "null"
  | Bool true => Some "true"
  | Bool false => Some "false"
  | Num n => Some (decimal n)
  | Str s => Some (QuoteJSONString s)
  | Arr l =>
      Some ("[" ++ join ","
                     (map (fun x => match JSON_stringify x with
                                    | Some t => t
                                    | None => "null"
                                    end) l) ++ "]")
  | Obj props =>
      Some ("{" ++ join ","
                     (members (own_key_order (first_occurrences (map fst props)))
                              (map (fun kv => (fst kv, JSON_stringify (snd kv)))
                                   props)) ++ "}")
  | Err _ _ => Some "{}"
  end.

End JS.

Import JS.

(* ================================================================== *)
(** * Effects *)
(* ================================================================== *)

(** The module has two effects: it writes to the console and it calls
    [fetch].  The world is the list of the effects performed so far, the
    oldest first. *)

Inductive channel := console_log | console_error.

(** The function behind [fetch]: the one passed in the options, or the
    [node-fetch] module. *)
Inductive sender := node_fetch | injected (id : nat).

(** The second argument of [fetch]. *)
Record request_init := {
  method : string;
  headers : list (string * string);
  body : option string
}.

Inductive event :=
| Console (c : channel) (args : list value)
| Fetch (via : sender) (url : string) (init : request_init).

Definition world := list event.

(** A thrown exception: [new Error(message)], or a [TypeError] of the
    language. *)
Inductive exception :=
| Error (message : string)
| TypeError (message : string).

Inductive outcome (A : Type) :=
| Returns (a : A)
| Throws (e : exception).
Arguments Returns {A} a.
Arguments Throws {A} e.

Definition M (A : Type) : Type := world -> outcome A * world.

Definition ret {A} (a : A) : M A := fun w => (Returns a, w).

Definition bind {A B} (m : M A) (k : A -> M B) : M B :=
  fun w => match m w with
           | (Returns a, w') => k a w'
           | (Throws e, w') => (Throws e, w')
           end.

Definition throw {A} (e : exception) : M A := fun w => (Throws e, w).

Declare Scope js_scope.
Delimit Scope js_scope with js.
Notation "x <- m ;; k" := (bind m (fun x => k))
  (at level 61, m at next level, right associativity) : js_scope.
Notation "m ;; k" := (bind m (fun _ => k))
  (at level 61, right associativity) : js_scope.
Local Open Scope js_scope.

(** What an operation hands back: the promise of the [fetch] it started,
    or nothing ([undefined]). *)
Inductive returned := pending | nothing.

(** [console.log(...args)] and [console.error(...args)] *)
Definition console (c : channel) (args : list value) : M unit :=
  fun w => (Returns tt, (w ++ [Console c args])%list).

(** [fetch(url, init)] *)
Definition call (f : sender) (url : string) (init : request_init) : M returned :=
  fun w => (Returns pending, (w ++ [Fetch f url init])%list).

(** The type errors of the language that the module can end with: a
    substitution of a template literal that cannot be converted, the call
    of [name.split] on a name that is no string, and the read of
    [options.fetch] on [null]. *)
Definition cannot_convert : exception :=
  TypeError "Cannot convert object to primitive value".
Definition split_is_no_function : exception :=
  TypeError "name.split is not a function".
Definition cannot_read_null : exception :=
  TypeError "Cannot read properties of null (reading 'fetch')".

(** The string a template literal evaluates to, when every substitution
    converts; the [TypeError] otherwise. *)
Definition template (text : option string) : M string :=
  match text with
  | Some s => ret s
  | None => throw cannot_convert
  end.

(* ================================================================== *)
(** * The module *)
(* ================================================================== *)

(** The errors of the specification, by the message the module throws. *)
Definition ConfigurationError : exception :=
  Error "[configureLogger] Called without all required properties.".
Definition NameError : exception :=
  Error "[createLogger] Called without a name.".
Definition AppendNameError : exception :=
  Error "[log.append] Called without a name.".
Definition MessageError : exception :=
  Error "[log] Called without a message.".
Definition ErrorInputError : exception :=
  Error "[log.error] Called without an error or message.".
Definition RequestError : exception :=
  Error "[log.request] Called without a request.".

(** An options object.  A property that is absent reads as [undefined];
    [opt_fetch] is the function under [fetch], [None] when the property is
    absent or falsy. *)
Record options := {
  opt_application : value;
  opt_key : value;
  opt_mode : value;
  opt_source : value;
  opt_fetch : option sender
}.

(** [{}], the default of the parameter. *)
Definition no_options : options :=
  {| opt_application := Undefined; opt_key := Undefined;
     opt_mode := Undefined; opt_source := Undefined; opt_fetch := None |}.

(** What the exported function is called with: nothing (or [undefined]),
    [null], or an options object. *)
Inductive options_argument :=
| no_argument
| null_argument
| object_argument (o : options).

(** The constants the exported function binds, which [configureLogger] and
    every logger close over. *)
Record bindings := {
  fetch : sender;
  application : value;
  key : value;
  mode : value;
  source : value
}.

(** A logger is the closure [log] with its properties [error], [request]
    and [append]: what tells one logger from another is the bindings and the
    [name] it closes over. *)
Record logger := {
  bound : bindings;
  name : string
}.

(** [module.exports = (options = {}) => ...] up to the definition of
    [configureLogger]: the function it returns is [configureLogger] over the
    bindings.  The default stands in for a missing argument only; on [null]
    the read of [options.fetch] throws. *)
Definition module_exports (arg : options_argument) : M bindings :=
  match arg with
  | null_argument => throw cannot_read_null
  | _ =>
      let options :=
        match arg with object_argument o => o | _ => no_options end in
      let fetch :=
        match opt_fetch options with Some f => f | None => node_fetch end in
      let application := opt_application options in
      let key := opt_key options in
      let mode := opt_mode options in
      let source := opt_source options in
      if falsy application || falsy key || falsy mode || falsy source
      then throw ConfigurationError
      else ret {| fetch := fetch; application := application; key := key;
                  mode := mode; source := source |}
  end.

(** [name.split('+').map(text => `[${ text }]`).join(' ')] *)
Definition displayName (name : string) : string :=
  join " " (map (fun text => "[" ++ text ++ "]") (split "+" name)).

(** [function configureLogger(name)].  Only a string has a [split]
    method. *)
Definition configureLogger (b : bindings) (name : value) : M logger :=
  if falsy name then throw NameError
  else match name with
       | Str s => ret {| bound := b; name := s |}
       | _ => throw split_is_no_function
       end.

(** [`https://api.logflare.app/logs?api_key=${ key }&source=${ source }`] *)
Definition endpoint (b : bindings) : option string :=
  match ToString (key b), ToString (source b) with
  | Some k, Some s =>
      Some ("https://api.logflare.app/logs?api_key=" ++ k ++ "&source=" ++ s)
  | _, _ => None
  end.

Section Logger.

Variable this : logger.

(** [function createMessage(message, notes)]; a missing [notes] is
    [undefined].  [None] when the template literal it returns throws. *)
Definition createMessage (message notes : value) : option string :=
  let suffix :=
    if truthy notes then
      let truthyNotes :=
        filter (fun key => truthy (Get notes key)) (Object_keys notes) in
      if negb (List.length truthyNotes =? 0)%nat
      then " (" ++ join ", " truthyNotes ++ ")"
      else ""
    else "" in
  match ToString message with
  | Some text => Some (displayName (name this) ++ " " ++ text ++ suffix)
  | None => None
  end.

(** [function logRemotely(message, { data, level })]; a missing [data] is
    [undefined]. *)
Definition logRemotely (message : string) (data : value) (level : string)
  : M returned :=
  url <- template (endpoint (bound this)) ;;
  call (fetch (bound this)) url
    {| method := "POST";
       headers := [("Content-Type", "application/json; charset=UTF-8")];
       body :=
         JSON_stringify
           (Obj [("log_entry", Str message);
                 ("metadata",
                  Obj [("application", application (bound this));
                       ("data", data);
                       ("level", Str level);
                       ("mode", mode (bound this))])]) |}.

(** [function log(message, data, notes)] *)
Definition log (message data notes : value) : M returned :=
  if falsy message then throw MessageError
  else
    fullMessage <- template (createMessage message notes) ;;
    if truthy data then
      console console_log [Str fullMessage; data] ;;
      logRemotely fullMessage data "info"
    else
      console console_log [Str fullMessage] ;;
      logRemotely fullMessage Undefined "info".

(** [log.error = (errorOrMessage, data) => ...] *)
Definition log_error (errorOrMessage data : value) : M returned :=
  if falsy errorOrMessage then throw ErrorInputError
  else if type_eqb (typeof errorOrMessage) t_string then
    message <- template (createMessage errorOrMessage Undefined) ;;
    if truthy data then
      console console_error [Str message; data] ;;
      logRemotely message data "error"
    else
      console console_error [Str message] ;;
      logRemotely message Undefined "error"
  else if type_eqb (typeof errorOrMessage) t_object then
    let error := errorOrMessage in
    message <- template (createMessage (Get error "message") Undefined) ;;
    let metadata := Obj [("stack", Get error "stack"); ("error", error)] in
    console console_error [Str message; metadata] ;;
    logRemotely message metadata "error"
  else ret nothing.

(** [log.request = (request) => ...] *)
Definition log_request (request : value) : M returned :=
  if falsy request then throw RequestError
  else
    let body := Get request "body" in
    let method := Get request "method" in
    let url := Get request "url" in
    line <- template (match ToString method, ToString url with
                      | Some m, Some u => Some (m ++ " " ++ u)
                      | _, _ => None
                      end) ;;
    message <- template (createMessage (Str line) Undefined) ;;
    if truthy (Get request "body") then
      console console_log [Str message; Get request "body"] ;;
      logRemotely message body "info"
    else
      console console_log [Str message] ;;
      logRemotely message Undefined "info".

(** [log.append = (newName) => ...] *)
Definition log_append (newName : value) : M logger :=
  if falsy newName then throw AppendNameError
  else
    compound <- template (match ToString newName with
                          | Some n => Some (name this ++ "+" ++ n)
                          | None => None
                          end) ;;
    configureLogger (bound this) (Str compound).

End Logger.

(** ** Invocations

    The three operations that log, as one type, so that a statement about
    every operation is a statement about every [invocation]. *)
Inductive invocation :=
| Log (message data notes : value)
| LogError (errorOrMessage data : value)
| LogRequest (request : value).

(** The argument an operation requires. *)
Definition required (i : invocation) : value :=
  match i with
  | Log message _ _ => message
  | LogError errorOrMessage _ => errorOrMessage
  | LogRequest request => request
  end.

Definition invoke (this : logger) (i : invocation) : M returned :=
  match i with
  | Log message data notes => log this message data notes
  | LogError errorOrMessage data => log_error this errorOrMessage data
  | LogRequest request => log_request this request
  end.

(** What a computation does when it starts in a world without history. *)
Definition result {A} (m : M A) : outcome A := fst (m []).
Definition effects {A} (m : M A) : world := snd (m []).



(** The object [logRemotely] serializes, with the [data] key only when there
    is a value for it. *)
Definition payload (b : bindings) (log_entry : string) (data : option value)
  (level : string) : value :=
  Obj [("log_entry", Str log_entry);
       ("metadata",
        Obj ([("application", application b)]
             ++ match data with Some d => [("data", d)] | None => [] end
             ++ [("level", Str level); ("mode", mode b)])%list)].

(** The suffix for a list of labels: nothing for no label. *)
Definition suffix_of (labels : list string) : string :=
  match labels with
  | [] => ""
  | _ :: _ => " (" ++ join ", " labels ++ ")"
  end.

(** An invocation that [log.error] has a branch for: [log] and
    [log.request] take any argument, [log.error] a string or an object. *)
Definition accepted (i : invocation) : bool :=
  match i with
  | LogError errorOrMessage _ =>
      type_eqb (typeof errorOrMessage) t_string
      || type_eqb (typeof errorOrMessage) t_object
  | _ => true
  end.


(** The console writes and the calls of [fetch] of a world, oldest first. *)
Fixpoint writes (w : world) : list (channel * list value) :=
  match w with
  | [] => []
  | Console c args :: rest => (c, args) :: writes rest
  | Fetch _ _ _ :: rest => writes rest
  end.

Fixpoint sends (w : world) : list (sender * string * request_init) :=
  match w with
  | [] => []
  | Console _ _ :: rest => sends rest
  | Fetch via url init :: rest => (via, url, init) :: sends rest
  end.

(** ** The table of operations of the specification

    What the specification's table says each operation writes and sends:
    the text of the message, the labels of its notes, the value that goes
    with it (none when no data is supplied), the level and the console
    channel.  The text is [None] where the source splices in a value that
    cannot be converted. *)

Definition text_of (i : invocation) : option string :=
  match i with
  | Log message _ _ => ToString message
  | LogError errorOrMessage _ =>
      match errorOrMessage with
      | Str s => Some s
      | _ => ToString (Get errorOrMessage "message")
      end
  | LogRequest request =>
      match ToString (Get request "method"), ToString (Get request "url") with
      | Some m, Some u => Some (m ++ " " ++ u)
      | _, _ => None
      end
  end.

(** The labels of the notes that count: the own keys, in the order
    [Object.keys] lists them, whose value is truthy. *)
Definition truthy_labels (notes : value) : list string :=
  if truthy notes
  then filter (fun key => truthy (Get notes key)) (Object_keys notes)
  else [].

Definition labels_of (i : invocation) : list string :=
  match i with
  | Log _ _ notes => truthy_labels notes
  | _ => []
  end.

(** The message as written and sent: the display name, the text, the
    suffix of the notes. *)
Definition rendered (this : logger) (i : invocation) : option string :=
  option_map
    (fun text => displayName (name this) ++ " " ++ text ++ suffix_of (labels_of i))
    (text_of i).


(** The key and the source of the configuration convert, so that the URL
    of the endpoint can be built. *)
Definition addressable (b : bindings) : bool :=
  convertible (key b) && convertible (source b).

Definition if_truthy (v : value) : option value :=
  if truthy v then Some v else None.

Definition attached (i : invocation) : option value :=
  match i with
  | Log _ data _ => if_truthy data
  | LogError errorOrMessage data =>
      match errorOrMessage with
      | Str _ => if_truthy data
      | _ => Some (Obj [("stack", Get errorOrMessage "stack");
                        ("error", errorOrMessage)])
      end
  | LogRequest request => if_truthy (Get request "body")
  end.

Definition level_of (i : invocation) : string :=
  match i with
  | LogError _ _ => "error"
  | _ => "info"
  end.

Definition channel_of (i : invocation) : channel :=
  match i with
  | LogError _ _ => console_error
  | _ => console_log
  end.

(** The error an operation throws for a falsy argument. *)
Definition refusal (i : invocation) : exception :=
  match i with
  | Log _ _ _ => MessageError
  | LogError _ _ => ErrorInputError
  | LogRequest _ => RequestError
  end.

Definition arguments (entry : string) (data : option value) : list value :=
  match data with
  | Some d => [Str entry; d]
  | None => [Str entry]
  end.

Definition post (text : option string) : request_init :=
  {| method := "POST";
     headers := [("Content-Type", "application/json; charset=UTF-8")];
     body := text |}.

(** The call of [fetch] that carries an entry. *)
Definition send_of (this : logger) (i : invocation) (entry url : string) : event :=
  Fetch (fetch (bound this)) url
    (post (JSON_stringify
             (payload (bound this) entry (attached i) (level_of i)))).

(** The whole table: how an invocation ends and what it adds to the
    world.  A falsy argument is refused; [log.error] has no branch for a
    truthy value that is neither a string nor an object; a text that does
    not convert ends the call before the write, a key or a source that does
    not convert ends it between the write and the send. *)
Definition table (this : logger) (i : invocation) : outcome returned * world :=
  if negb (truthy (required i)) then (Throws (refusal i), [])
  else if negb (accepted i) then (Returns nothing, [])
  else
    match rendered this i with
    | None => (Throws cannot_convert, [])
    | Some entry =>
        let write := Console (channel_of i) (arguments entry (attached i)) in
        match endpoint (bound this) with
        | None => (Throws cannot_convert, [write])
        | Some url => (Returns pending, [write; send_of this i entry url])
        end
    end.

(** The labels of the entries with a truthy value, in the order of the
    entries: the insertion order of a notes mapping. *)
Definition truthy_entries (entries : list (string * value)) : list string :=
  map fst (filter (fun entry => truthy (snd entry)) entries).

(** No key occurs twice. *)
Fixpoint distinct (ks : list string) : bool :=
  match ks with
  | [] => true
  | k :: rest => negb (existsb (String.eqb k) rest) && distinct rest
  end.

(** The character occurs in the string. *)
Fixpoint contains (c : ascii) (s : string) : bool :=
  match s with
  | EmptyString => false
  | String c' rest => Ascii.eqb c' c || contains c rest
  end.

(** ** The name of a logger, character by character

    The display name written without [split], [map] and [join]: every ["+"]
    of the name closes a bracket and opens the next one. *)
Fixpoint plus_to_brackets (name : string) : string :=
  match name with
  | EmptyString => EmptyString
  | String c rest =>
      if Ascii.eqb c "+" then "] [" ++ plus_to_brackets rest
      else String c (plus_to_brackets rest)
  end.

(** A logger as [module.exports] and [configureLogger] let one through: the
    four identity fields truthy, the name not empty. *)
Definition configured (this : logger) : bool :=
  truthy (application (bound this)) && truthy (key (bound this))
  && truthy (mode (bound this)) && truthy (source (bound this))
  && negb (String.eqb (name this) "").

(** Where a call of [fetch] goes: the function called, the URL, the method
    and the headers, which is the call without its body. *)
Definition destination (send : sender * string * request_init)
  : sender * string * string * list (string * string) :=
  (fst (fst send), snd (fst send), method (snd send), headers (snd send)).

(** ** The helper of the test suite

    [confirmCorrectBaseRequest(fetch, { key, source })] of [log.test.js]
    reads the first call recorded by [fetch], a sinon spy that the suite
    passes in the options, and holds three expectations against it.  A spy
    is known by the number under which the world records it as
    [injected]. *)





(* ================================================================== *)
(** * The runs of the test suite *)
(* ================================================================== *)

Module Tests.

Definition fake : bindings :=
  {| fetch := injected 0; application := Str "test-app"; key := Str "string";
     mode := Str "testing"; source := Str "string" |}.

Definition named (n : string) : logger := {| bound := fake; name := n |}.

Definition quoted (s : string) : string := dquote ++ s ++ dquote.

(** A value that cannot be converted to a string: [{toString: "x"}]. *)
Definition stubborn : value := Obj [("toString", Str "x")].

Example stringify_object :
  JSON_stringify
    (Obj [("b", Int 1); ("2", Str "x"); ("u", Undefined);
          ("a", Arr [Null; Undefined; Bool true]); ("b", Obj [])])
  = Some ("{" ++ dquote ++ "2" ++ dquote ++ ":" ++ dquote ++ "x" ++ dquote ++ ","
              ++ dquote ++ "b" ++ dquote ++ ":{},"
              ++ dquote ++ "a" ++ dquote ++ ":[null,null,true]}").
Proof. vm_compute. reflexivity. Qed.

Example log_with_notes :
  map (fun e => match e with Console _ args => args | _ => [] end)
    (effects (log (named "test-title") (Str "Test message.") (Obj [])
                (Obj [("note 1", Bool true); ("note 2", Bool false);
                      ("note 3", Int 1); ("note 4", Str "ok")])))
  = [[Str "[test-title] Test message. (note 1, note 3, note 4)"; Obj []]; []].
Proof. vm_compute. reflexivity. Qed.

Example log_all_false_notes :
  createMessage (named "test-title") (Str "Test message.")
    (Obj [("note 1", Bool false); ("note 2", Bool false); ("note 3", Bool false)])
  = Some "[test-title] Test message.".
Proof. vm_compute. reflexivity. Qed.

Example error_object :
  let error := Err "Error message." "Error: Error message. at Context" in
  effects (log_error (named "test") error Undefined)
  = [Console console_error
       [Str "[test] Error message.";
        Obj [("stack", Str "Error: Error message. at Context"); ("error", error)]];
     Fetch (injected 0)
       "https://api.logflare.app/logs?api_key=string&source=string"
       {| method := "POST";
          headers := [("Content-Type", "application/json; charset=UTF-8")];
          body := JSON_stringify
                    (payload fake "[test] Error message."
                       (Some (Obj [("stack", Str "Error: Error message. at Context");
                                   ("error", error)]))
                       "error") |}].
Proof. vm_compute. reflexivity. Qed.

Example request_without_body :
  effects (log_request (named "name") (Obj [("method", Str "GET"); ("url", Str "/")]))
  = [Console console_log [Str "[name] GET /"];
     Fetch (injected 0)
       "https://api.logflare.app/logs?api_key=string&source=string"
       {| method := "POST";
          headers := [("Content-Type", "application/json; charset=UTF-8")];
          body := JSON_stringify (payload fake "[name] GET /" None "info") |}].
Proof. vm_compute. reflexivity. Qed.

Example append_both_names :
  let run :=
    bind (configureLogger fake (Str "one")) (fun logOne =>
    bind (log_append logOne (Str "two")) (fun logTwo =>
    bind (log logOne (Str "Message.") Undefined Undefined) (fun _ =>
    log logTwo (Str "Message.") Undefined Undefined))) in
  map (fun e => match e with Console _ args => args | _ => [] end) (effects run)
  = [[Str "[one] Message."]; []; [Str "[one] [two] Message."]; []].
Proof. vm_compute. reflexivity. Qed.

Example request_without_fields :
  writes (effects (log_request (named "name") (Obj [])))
  = [(console_log, [Str "[name] undefined undefined"])].
Proof. vm_compute. reflexivity. Qed.

Example request_that_is_a_number :
  writes (effects (log_request (named "name") (Int 7)))
  = [(console_log, [Str "[name] undefined undefined"])].
Proof. vm_compute. reflexivity. Qed.

Example log_body_text :
  map (fun send => body (snd send))
    (sends (effects (log (named "name") (Str "Test message.") Undefined Undefined)))
  = [Some ("{" ++ quoted "log_entry" ++ ":" ++ quoted "[name] Test message." ++ ","
               ++ quoted "metadata" ++ ":{"
               ++ quoted "application" ++ ":" ++ quoted "test-app" ++ ","
               ++ quoted "level" ++ ":" ++ quoted "info" ++ ","
               ++ quoted "mode" ++ ":" ++ quoted "testing" ++ "}}")].
Proof. vm_compute. reflexivity. Qed.

Example log_body_text_with_data :
  map (fun send => body (snd send))
    (sends (effects (log (named "name") (Str "Test message.")
                       (Obj [("id", Int 7)]) Undefined)))
  = [Some ("{" ++ quoted "log_entry" ++ ":" ++ quoted "[name] Test message." ++ ","
               ++ quoted "metadata" ++ ":{"
               ++ quoted "application" ++ ":" ++ quoted "test-app" ++ ","
               ++ quoted "data" ++ ":{" ++ quoted "id" ++ ":7},"
               ++ quoted "level" ++ ":" ++ quoted "info" ++ ","
               ++ quoted "mode" ++ ":" ++ quoted "testing" ++ "}}")].
Proof. vm_compute. reflexivity. Qed.

Example createLogger_of_a_number :
  configureLogger fake (Int 5) [] = (Throws split_is_no_function, []).
Proof. reflexivity. Qed.

Example log_of_a_stubborn_message :
  log (named "name") stubborn Undefined Undefined []
  = (Throws cannot_convert, []).
Proof. reflexivity. Qed.

Example log_with_a_stubborn_key :
  log {| bound := {| fetch := injected 0; application := Str "test-app";
                     key := stubborn; mode := Str "testing";
                     source := Str "string" |};
         name := "name" |}
    (Str "Test message.") Undefined Undefined []
  = (Throws cannot_convert, [Console console_log [Str "[name] Test message."]]).
Proof. reflexivity. Qed.

End Tests.

(* ================================================================== *)
(** * Running an operation *)
(* ================================================================== *)

Lemma append_empty (s : string) : s ++ "" = s.
Proof. induction s as [|c s IH]; simpl; congruence. Qed.

Lemma append_assoc (a b c : string) : (a ++ b) ++ c = a ++ b ++ c.
Proof. induction a as [|x a IH]; simpl; congruence. Qed.



Lemma if_truthy_some (v : value) : truthy v = true -> if_truthy v = Some v.
Proof. unfold if_truthy; now intros ->. Qed.

Lemma if_truthy_none (v : value) : truthy v = false -> if_truthy v = None.
Proof. unfold if_truthy; now intros ->. Qed.

(** A value whose type is [string] is a [Str]. *)
Lemma typeof_string (v : value) :
  type_eqb (typeof v) t_string = true -> exists s, v = Str s.
Proof. destruct v; try discriminate; eauto. Qed.

(** The suffix of a message is that of the truthy labels of its notes. *)
Lemma createMessage_suffix (this : logger) (message notes : value) :
  createMessage this message notes
  = option_map
      (fun text =>
         displayName (name this) ++ " " ++ text ++ suffix_of (truthy_labels notes))
      (ToString message).
Proof.
  unfold createMessage, truthy_labels.
  destruct (ToString message) as [text|]; [|reflexivity]; cbn [option_map].
  destruct (truthy notes); [|reflexivity].
  now destruct (filter _ (Object_keys notes)).
Qed.

(** A message rendered without notes: the display name, a space, the
    message. *)
Lemma createMessage_plain (this : logger) (message : value) :
  createMessage this message Undefined
  = option_map (fun text => displayName (name this) ++ " " ++ text)
      (ToString message).
Proof.
  rewrite createMessage_suffix.
  destruct (ToString message); cbn; [|reflexivity].
  now rewrite append_empty.
Qed.

Lemma createMessage_notes (this : logger) (message notes : value) :
  createMessage this message notes
  = option_map (fun plain => plain ++ suffix_of (truthy_labels notes))
      (createMessage this message Undefined).
Proof.
  rewrite createMessage_suffix, createMessage_plain.
  destruct (ToString message); cbn [option_map]; [|reflexivity].
  now rewrite !append_assoc.
Qed.

(** [JSON.stringify] leaves a [data] that is [undefined] out of the
    metadata: the text is that of the object without the key. *)
Lemma stringify_without_data (b : bindings) (entry level : string) :
  JSON_stringify
    (Obj [("log_entry", Str entry);
          ("metadata",
           Obj [("application", application b); ("data", Undefined);
                ("level", Str level); ("mode", mode b)])])
  = JSON_stringify (payload b entry None level).
Proof.
  unfold payload; cbn.
  destruct (JSON_stringify (application b)), (JSON_stringify (mode b)); reflexivity.
Qed.

(** A console write followed by [logRemotely], from any world: the write
    is made, and the send follows when the URL can be built. *)
Lemma write_then_send (this : logger) c args message (data : option value)
  level (w : world) :
  (console c args ;;
   logRemotely this message
     match data with Some d => d | None => Undefined end level) w
  = match endpoint (bound this) with
    | Some url =>
        (Returns pending,
         (w ++ [Console c args;
                Fetch (fetch (bound this)) url
                  (post (JSON_stringify
                           (payload (bound this) message data level)))])%list)
    | None => (Throws cannot_convert, (w ++ [Console c args])%list)
    end.
Proof.
  unfold logRemotely, post.
  destruct data as [d|]; [|rewrite stringify_without_data];
    unfold bind, console; destruct (endpoint (bound this)) as [url|];
    unfold template, ret, throw, call; cbv beta iota;
    rewrite <- ?app_assoc; reflexivity.
Qed.

(** What the source renders is what the table renders. *)
Lemma rendered_log (this : logger) (message data notes : value) :
  createMessage this message notes = rendered this (Log message data notes).
Proof. apply createMessage_suffix. Qed.

Lemma rendered_string (this : logger) (s : string) (data : value) :
  createMessage this (Str s) Undefined = rendered this (LogError (Str s) data).
Proof. reflexivity. Qed.

Lemma rendered_error (this : logger) (error data : value) :
  type_eqb (typeof error) t_string = false ->
  createMessage this (Get error "message") Undefined
  = rendered this (LogError error data).
Proof.
  intros H. rewrite createMessage_suffix.
  destruct error; try reflexivity; discriminate H.
Qed.

(** The table is what the source does, from any world: how the call ends,
    and the events it appends. *)
Lemma invoke_table (this : logger) (i : invocation) (w : world) :
  invoke this i w = (fst (table this i), (w ++ snd (table this i))%list).
Proof.
  unfold table.
  destruct (truthy (required i)) eqn:Hreq; cbn [negb].
  2: { destruct i; cbn [required] in Hreq;
       unfold invoke, log, log_error, log_request, falsy; rewrite Hreq;
       cbn; now rewrite app_nil_r. }
  destruct i as [message data notes|errorOrMessage data|request];
    cbn [required accepted negb] in *; cbn [invoke].
  - unfold log, falsy. rewrite Hreq; cbn [negb].
    rewrite rendered_log with (data := data).
    destruct (rendered this (Log message data notes)) as [entry|];
      unfold bind at 1; cbn [template ret throw];
      [|cbn; now rewrite app_nil_r].
    unfold send_of; cbn [attached channel_of level_of].
    destruct (truthy data) eqn:Hd.
    + rewrite (if_truthy_some _ Hd).
      rewrite (write_then_send this _ _ entry (Some data)).
      now destruct (endpoint (bound this)).
    + rewrite (if_truthy_none _ Hd).
      rewrite (write_then_send this _ _ entry None).
      now destruct (endpoint (bound this)).
  - unfold log_error, falsy. rewrite Hreq; cbn [negb].
    destruct (type_eqb (typeof errorOrMessage) t_string) eqn:Hs; cbn [orb negb].
    + destruct (typeof_string _ Hs) as [s ->].
      rewrite rendered_string with (data := data).
      destruct (rendered this (LogError (Str s) data)) as [entry|];
        unfold bind at 1; cbn [template ret throw];
        [|cbn; now rewrite app_nil_r].
      unfold send_of; cbn [attached channel_of level_of].
      destruct (truthy data) eqn:Hd.
      * rewrite (if_truthy_some _ Hd).
        rewrite (write_then_send this _ _ entry (Some data)).
        now destruct (endpoint (bound this)).
      * rewrite (if_truthy_none _ Hd).
        rewrite (write_then_send this _ _ entry None).
        now destruct (endpoint (bound this)).
    + destruct (type_eqb (typeof errorOrMessage) t_object) eqn:Ho; cbn [negb].
      2: { cbn; now rewrite app_nil_r. }
      rewrite (rendered_error this errorOrMessage data Hs).
      destruct (rendered this (LogError errorOrMessage data)) as [entry|];
        unfold bind at 1; cbn [template ret throw];
        [|cbn; now rewrite app_nil_r].
      unfold send_of; cbn [channel_of level_of].
      replace (attached (LogError errorOrMessage data))
        with (Some (Obj [("stack", Get errorOrMessage "stack");
                         ("error", errorOrMessage)]))
        by (destruct errorOrMessage; try reflexivity; discriminate Hs).
      rewrite (write_then_send this _ _ entry (Some _)).
      now destruct (endpoint (bound this)).
  - unfold log_request, falsy. rewrite Hreq; cbn [negb].
    unfold rendered; cbn [text_of labels_of suffix_of].
    destruct (ToString (Get request "method")) as [m|];
      [destruct (ToString (Get request "url")) as [u|]|];
      unfold bind at 1; cbn [template ret throw option_map];
      try (cbn; now rewrite app_nil_r).
    rewrite createMessage_plain; cbn [ToString option_map].
    unfold bind at 1; cbn [template ret].
    rewrite append_empty.
    unfold send_of; cbn [attached channel_of level_of].
    destruct (truthy (Get request "body")) eqn:Hd.
    + rewrite (if_truthy_some _ Hd).
      rewrite (write_then_send this _ _ _ (Some (Get request "body"))).
      now destruct (endpoint (bound this)).
    + rewrite (if_truthy_none _ Hd).
      rewrite (write_then_send this _ _ _ None).
      now destruct (endpoint (bound this)).
Qed.

(** The effects of an operation do not depend on the world it starts in:
    they are appended to it. *)
Lemma invoke_frame (this : logger) (i : invocation) (w : world) :
  invoke this i w
  = (result (invoke this i), (w ++ effects (invoke this i))%list).
Proof.
  unfold result, effects. now rewrite (invoke_table this i []), invoke_table.
Qed.

Lemma effects_table (this : logger) (i : invocation) :
  effects (invoke this i) = snd (table this i).
Proof. unfold effects. now rewrite invoke_table. Qed.

Lemma result_table (this : logger) (i : invocation) :
  result (invoke this i) = fst (table this i).
Proof. unfold result. now rewrite invoke_table. Qed.

(** The table of an operation that goes through. *)
Lemma table_through (this : logger) (i : invocation) (entry url : string) :
  truthy (required i) = true ->
  accepted i = true ->
  rendered this i = Some entry ->
  endpoint (bound this) = Some url ->
  table this i
  = (Returns pending,
     [Console (channel_of i) (arguments entry (attached i));
      send_of this i entry url]).
Proof. intros Hreq Hacc He Hu. unfold table. now rewrite Hreq, Hacc, He, Hu. Qed.



Lemma addressable_endpoint (b : bindings) :
  addressable b = true -> exists url, endpoint b = Some url.
Proof.
  unfold addressable, convertible, endpoint.
  destruct (ToString (key b)), (ToString (source b)); try discriminate; eauto.
Qed.

(** * C1 *)




(* ================================================================== *)
(** * What an operation writes and sends *)
(* ================================================================== *)

(** Creating a logger and appending a name have no effect, whatever they
    return. *)
Lemma naming_has_no_effect (b : bindings) (this : logger) (n : value) (w : world) :
  snd (configureLogger b n w) = w /\ snd (log_append this n w) = w.
Proof.
  unfold log_append, configureLogger.
  destruct (falsy n); split; try reflexivity.
  - now destruct n.
  - unfold bind. destruct (ToString n) as [text|]; cbn [template ret throw];
      [|reflexivity].
    now destruct (falsy (Str _)).
Qed.

(** A value that is attached has a JSON text, so its key is written. *)
Lemma stringify_truthy (v : value) :
  truthy v = true -> JSON_stringify v <> None.
Proof. destruct v as [| |[|]| | | | | |]; simpl; discriminate. Qed.

(** * C5 *)

(** C5.  Every remote send of every operation goes through the configured
    [fetch] to the URL
    [https://api.logflare.app/logs?api_key={key}&source={source}], the key
    and the source spliced in as the template literal converts them (a
    string as it is, with no escaping), with method [POST], the one header
    [Content-Type: application/json; charset=UTF-8] and, as its body, the
    JSON text of [{log_entry, metadata: {application, data?, level, mode}}],
    where [data] is a key of the metadata only when the operation has a
    value to attach.  There is one such send when the operation goes
    through, and none otherwise. *)
Theorem remote_send_request (this : logger) (i : invocation) :
  sends (effects (invoke this i))
  = match (if truthy (required i) && accepted i then rendered this i else None),
          ToString (key (bound this)), ToString (source (bound this)) with
    | Some entry, Some k, Some s =>
        [(fetch (bound this),
          "https://api.logflare.app/logs?api_key=" ++ k ++ "&source=" ++ s,
          {| method := "POST";
             headers := [("Content-Type", "application/json; charset=UTF-8")];
             body := JSON_stringify
                       (Obj [("log_entry", Str entry);
                             ("metadata",
                              Obj ([("application", application (bound this))]
                                   ++ match attached i with
                                      | Some d => [("data", d)]
                                      | None => []
                                      end
                                   ++ [("level", Str (level_of i));
                                       ("mode", mode (bound this))])%list)]) |})]
    | _, _, _ => []
    end
  /\ forall k s,
       key (bound this) = Str k -> source (bound this) = Str s ->
       ToString (key (bound this)) = Some k
       /\ ToString (source (bound this)) = Some s.
Proof.
  split; [|intros k s -> ->; split; reflexivity].
  rewrite effects_table. unfold table, endpoint.
  destruct (truthy (required i)); cbn [andb negb]; [|reflexivity].
  destruct (accepted i); cbn [negb]; [|reflexivity].
  destruct (rendered this i) as [entry|]; [|reflexivity].
  now destruct (ToString (key (bound this))), (ToString (source (bound this))).
Qed.

(** * C2 *)




(** * C6 *)

(** C6.  For every truthy object handed to [log.error], the second argument
    of the console write and the [data] of the remote metadata are both
    [{stack: error.stack, error: error}], whatever the [data] argument is;
    for a string, the [data] argument is attached when it is truthy and
    left out otherwise.  (The write is made when the [message] of the object
    converts to a string, the send when the key and the source do.) *)
Theorem error_metadata (this : logger) (errorOrMessage data : value) :
  truthy errorOrMessage = true ->
  (type_eqb (typeof errorOrMessage) t_object = true ->
   let metadata :=
     Obj [("stack", Get errorOrMessage "stack"); ("error", errorOrMessage)] in
   effects (log_error this errorOrMessage data)
   = match createMessage this (Get errorOrMessage "message") Undefined with
     | None => []
     | Some message =>
         Console console_error [Str message; metadata]
         :: match endpoint (bound this) with
            | None => []
            | Some url =>
                [Fetch (fetch (bound this)) url
                   (post (JSON_stringify
                            (payload (bound this) message (Some metadata)
                               "error")))]
            end
     end)
  /\ (type_eqb (typeof errorOrMessage) t_string = true ->
      effects (log_error this errorOrMessage data)
      = match createMessage this errorOrMessage Undefined with
        | None => []
        | Some message =>
            Console console_error
              (if truthy data then [Str message; data] else [Str message])
            :: match endpoint (bound this) with
               | None => []
               | Some url =>
                   [Fetch (fetch (bound this)) url
                      (post (JSON_stringify
                               (payload (bound this) message
                                  (if truthy data then Some data else None)
                                  "error")))]
               end
        end).
Proof.
  intros Hreq; split; intros Hty; cbv zeta;
    change (log_error this errorOrMessage data)
      with (invoke this (LogError errorOrMessage data));
    rewrite effects_table; unfold table; cbn [required accepted];
    rewrite Hreq, Hty; cbn [negb orb].
  - rewrite orb_true_r; cbn [negb].
    assert (Hs : type_eqb (typeof errorOrMessage) t_string = false)
      by (destruct errorOrMessage; try discriminate Hty; reflexivity).
    rewrite <- (rendered_error this errorOrMessage data Hs).
    destruct (createMessage this (Get errorOrMessage "message") Undefined)
      as [message|]; [|reflexivity].
    unfold send_of; cbn [channel_of level_of].
    replace (attached (LogError errorOrMessage data))
      with (Some (Obj [("stack", Get errorOrMessage "stack");
                       ("error", errorOrMessage)]))
      by (destruct errorOrMessage; try reflexivity; discriminate Hs).
    now destruct (endpoint (bound this)).
  - destruct (typeof_string _ Hty) as [s ->].
    rewrite <- (rendered_string this s data).
    destruct (createMessage this (Str s) Undefined) as [message|];
      [|reflexivity].
    unfold send_of; cbn [channel_of level_of attached]; unfold if_truthy.
    destruct (truthy data); now destruct (endpoint (bound this)).
Qed.

Lemma error_metadata_witness :
  effects (log_error (Tests.named "test") (Err "Error message." "at Context")
             (Str "ignored"))
  = [Console console_error
       [Str "[test] Error message.";
        Obj [("stack", Str "at Context");
             ("error", Err "Error message." "at Context")]];
     Fetch (injected 0)
       "https://api.logflare.app/logs?api_key=string&source=string"
       (post (JSON_stringify
                (payload Tests.fake "[test] Error message."
                   (Some (Obj [("stack", Str "at Context");
                               ("error", Err "Error message." "at Context")]))
                   "error")))].
Proof.
  apply (proj1 (error_metadata (Tests.named "test")
                  (Err "Error message." "at Context") (Str "ignored") eq_refl)).
  reflexivity.
Defined.

(** * C7 *)

(** C7 (as amended).  For every options object, and for a call without
    options, configuring the factory fails with the configuration error
    exactly when one of [application], [key], [mode] and [source] is absent
    or falsy; when the four are truthy it succeeds and returns
    [configureLogger] bound to them and to the [fetch] of the options, or to
    [node-fetch] when the options have none.  For [null] it fails with a
    type error, the read of [options.fetch] coming before the check.  No
    case has an effect. *)
Theorem configuration_check (arg : options_argument) (w : world) :
  match arg with
  | null_argument => module_exports arg w = (Throws cannot_read_null, w)
  | _ =>
      let options := match arg with object_argument o => o | _ => no_options end in
      (module_exports arg w = (Throws ConfigurationError, w)
       <-> (truthy (opt_application options) = false
            \/ truthy (opt_key options) = false
            \/ truthy (opt_mode options) = false
            \/ truthy (opt_source options) = false))
      /\ (truthy (opt_application options) = true
          /\ truthy (opt_key options) = true
          /\ truthy (opt_mode options) = true
          /\ truthy (opt_source options) = true
          <-> module_exports arg w
              = (Returns {| fetch := match opt_fetch options with
                                     | Some f => f
                                     | None => node_fetch
                                     end;
                            application := opt_application options;
                            key := opt_key options;
                            mode := opt_mode options;
                            source := opt_source options |}, w))
  end.
Proof.
  assert (H : forall options,
             let run :=
               (if falsy (opt_application options) || falsy (opt_key options)
                   || falsy (opt_mode options) || falsy (opt_source options)
                then throw ConfigurationError
                else ret {| fetch := match opt_fetch options with
                                     | Some f => f
                                     | None => node_fetch
                                     end;
                            application := opt_application options;
                            key := opt_key options;
                            mode := opt_mode options;
                            source := opt_source options |}) w in
             (run = (Throws ConfigurationError, w)
              <-> (truthy (opt_application options) = false
                   \/ truthy (opt_key options) = false
                   \/ truthy (opt_mode options) = false
                   \/ truthy (opt_source options) = false))
             /\ (truthy (opt_application options) = true
                 /\ truthy (opt_key options) = true
                 /\ truthy (opt_mode options) = true
                 /\ truthy (opt_source options) = true
                 <-> run
                     = (Returns {| fetch := match opt_fetch options with
                                            | Some f => f
                                            | None => node_fetch
                                            end;
                                   application := opt_application options;
                                   key := opt_key options;
                                   mode := opt_mode options;
                                   source := opt_source options |}, w))).
  { intros options run; subst run; unfold falsy.
    destruct (truthy (opt_application options)), (truthy (opt_key options)),
      (truthy (opt_mode options)), (truthy (opt_source options));
      cbn [negb orb]; unfold throw, ret;
      (split; split; [intros H|intros H..]);
      try discriminate H; try reflexivity; auto;
      try (destruct H as [H|[H|[H|H]]]; discriminate H);
      try (destruct H as (H1 & H2 & H3 & H4); discriminate). }
  destruct arg as [| |o]; [apply (H no_options)|reflexivity|apply (H o)].
Qed.

(** C7 fails as stated: [null] is an options value with none of the four
    fields, and configuring with it ends in a type error, not in the
    configuration error. *)
Lemma null_options_are_a_type_error :
  module_exports null_argument [] = (Throws cannot_read_null, [])
  /\ cannot_read_null <> ConfigurationError.
Proof. split; [reflexivity|discriminate]. Qed.

(** * C8 *)

(** C8.  A falsy required argument makes each operation throw its error at
    the call: the name error for [createLogger] and for [log.append], the
    message error for [log], the error-input error for [log.error] and the
    request error for [log.request]; the world is then as it was before the
    call, with no console write and no remote send. *)
Theorem falsy_argument_throws (b : bindings) (this : logger)
  (argument data notes : value) (w : world) :
  truthy argument = false ->
  configureLogger b argument w = (Throws NameError, w)
  /\ log this argument data notes w = (Throws MessageError, w)
  /\ log_error this argument data w = (Throws ErrorInputError, w)
  /\ log_request this argument w = (Throws RequestError, w)
  /\ log_append this argument w = (Throws AppendNameError, w).
Proof.
  intros H.
  unfold configureLogger, log, log_error, log_request, log_append, falsy.
  rewrite H; cbn [negb]; unfold throw; auto 6.
Qed.

Lemma falsy_argument_throws_witness :
  configureLogger Tests.fake Undefined [] = (Throws NameError, [])
  /\ log (Tests.named "name") Undefined Undefined Undefined []
     = (Throws MessageError, [])
  /\ log_error (Tests.named "name") Undefined Undefined []
     = (Throws ErrorInputError, [])
  /\ log_request (Tests.named "name") Undefined [] = (Throws RequestError, [])
  /\ log_append (Tests.named "name") Undefined [] = (Throws AppendNameError, []).
Proof.
  apply (falsy_argument_throws Tests.fake (Tests.named "name")
           Undefined Undefined Undefined []).
  reflexivity.
Defined.

(** * C10 *)



(* ================================================================== *)
(** * Notes *)
(* ================================================================== *)

Lemma filter_other (k : string) (ks : list string) :
  existsb (String.eqb k) ks = false ->
  filter (fun k' => negb (String.eqb k' k)) ks = ks.
Proof.
  induction ks as [|k' ks IH]; simpl; [reflexivity|].
  intros H; apply orb_false_iff in H as [Hk Hks].
  rewrite String.eqb_sym, Hk; simpl. now rewrite IH.
Qed.

(** Distinct keys are their own first occurrences. *)
Lemma first_occurrences_distinct (ks : list string) :
  distinct ks = true -> first_occurrences ks = ks.
Proof.
  induction ks as [|k ks IH]; simpl; [reflexivity|].
  intros H; apply andb_true_iff in H as [Hk Hks].
  apply negb_true_iff in Hk.
  now rewrite (IH Hks), (filter_other _ _ Hk).
Qed.

(** Without array indices the own keys are listed in the order of their
    creation. *)
Lemma own_key_order_plain (ks : list string) :
  forallb (fun k => negb (is_array_index k)) ks = true ->
  own_key_order ks = ks.
Proof.
  unfold own_key_order; intros H.
  assert (Hs : sort_indices ks = []).
  { induction ks as [|k ks IH]; simpl in *; [reflexivity|].
    apply andb_true_iff in H as [Hk Hks]. unfold is_array_index in Hk.
    destruct (array_index k); [discriminate|auto]. }
  rewrite Hs; simpl.
  induction ks as [|k ks IH]; simpl in *; [reflexivity|].
  apply andb_true_iff in H as [Hk Hks]. rewrite Hk.
  f_equal. apply IH; [assumption|].
  simpl in Hs. unfold is_array_index in Hk.
  destruct (array_index k); [discriminate|assumption].
Qed.

Lemma lookup_absent (k : string) (props : list (string * value)) :
  existsb (String.eqb k) (map fst props) = false -> lookup k props = None.
Proof.
  induction props as [|[k' v'] props IH]; simpl; [reflexivity|].
  intros H; apply orb_false_iff in H as [Hk Hks].
  rewrite (IH Hks), String.eqb_sym, Hk. reflexivity.
Qed.

(** With distinct keys, an entry of the list is what the key reads as. *)
Lemma lookup_entry (props : list (string * value)) (k : string) (v : value) :
  distinct (map fst props) = true ->
  In (k, v) props -> lookup k props = Some v.
Proof.
  induction props as [|[k' v'] props IH]; simpl; [contradiction|].
  intros H [Heq|Hin]; apply andb_true_iff in H as [Hk Hks].
  - inversion Heq; subst. apply negb_true_iff in Hk.
    now rewrite (lookup_absent _ _ Hk), String.eqb_refl.
  - now rewrite (IH Hks Hin).
Qed.

Lemma filter_read (props entries : list (string * value)) :
  (forall k v, In (k, v) entries -> lookup k props = Some v) ->
  filter (fun key => truthy (Get (Obj props) key)) (map fst entries)
  = truthy_entries entries.
Proof.
  unfold truthy_entries.
  induction entries as [|[k v] entries IH]; [reflexivity|].
  intros H. cbn [map filter fst snd].
  replace (Get (Obj props) k) with v
    by (cbn [Get]; now rewrite (H k v (or_introl eq_refl))).
  rewrite IH by (intros; apply H; now right).
  now destruct (truthy v).
Qed.

(** The truthy labels of a mapping whose keys are distinct and none of them
    an array index are the truthy entries in insertion order. *)
Lemma truthy_labels_insertion_order (entries : list (string * value)) :
  distinct (map fst entries) = true ->
  forallb (fun k => negb (is_array_index k)) (map fst entries) = true ->
  truthy_labels (Obj entries) = truthy_entries entries.
Proof.
  intros Hd Hk. unfold truthy_labels; cbn [truthy Object_keys].
  rewrite (first_occurrences_distinct _ Hd), (own_key_order_plain _ Hk).
  apply filter_read. intros k v; now apply lookup_entry.
Qed.

(** Notes without a truthy value give no label (whatever their keys). *)
Lemma truthy_labels_all_falsy (entries : list (string * value)) :
  forallb (fun entry => falsy (snd entry)) entries = true ->
  truthy_labels (Obj entries) = [].
Proof.
  intros H. unfold truthy_labels; cbn [truthy Object_keys].
  assert (Hget : forall k, truthy (Get (Obj entries) k) = false).
  { intros k; cbn [Get].
    induction entries as [|[k' v'] entries IH]; simpl in *; [reflexivity|].
    apply andb_true_iff in H as [Hv Hrest]. specialize (IH Hrest).
    destruct (lookup k entries); [assumption|].
    destruct (String.eqb k' k); [|reflexivity].
    unfold falsy in Hv; now apply negb_true_iff in Hv. }
  induction (own_key_order _) as [|k ks IH]; cbn [filter]; [reflexivity|].
  now rewrite Hget.
Qed.

(** * C3 *)

(** C3 (as amended).  For every logger, message and notes mapping whose
    labels are distinct and none of which is an array index (the canonical
    numeral of an integer from 0 to 2^32 - 2), the message is the one without
    notes followed by [" (k1, k2, ...)"], the labels whose value is truthy in
    insertion order, and by nothing when there is no such label; and for
    every mapping that is empty or whose values are all falsy, the message
    is the one rendered without notes.  (A message that does not convert to
    a string is rendered neither with notes nor without.) *)
Theorem notes_suffix (this : logger) (message : value)
  (entries : list (string * value)) :
  (distinct (map fst entries) = true ->
   forallb (fun k => negb (is_array_index k)) (map fst entries) = true ->
   createMessage this message (Obj entries)
   = option_map (fun plain => plain ++ suffix_of (truthy_entries entries))
       (createMessage this message Undefined))
  /\ (forallb (fun entry => falsy (snd entry)) entries = true ->
      createMessage this message (Obj entries)
      = createMessage this message Undefined).
Proof.
  split.
  - intros Hd Hk.
    now rewrite createMessage_notes, (truthy_labels_insertion_order _ Hd Hk).
  - intros Hf.
    rewrite createMessage_notes, (truthy_labels_all_falsy _ Hf).
    destruct (createMessage this message Undefined); cbn; [|reflexivity].
    now rewrite append_empty.
Qed.

Lemma notes_suffix_witness :
  createMessage (Tests.named "test-title") (Str "Test message.")
    (Obj [("note 1", Bool true); ("note 2", Bool false);
          ("note 3", Int 1); ("note 4", Str "ok")])
  = option_map (fun plain => plain ++ " (note 1, note 3, note 4)")
      (createMessage (Tests.named "test-title") (Str "Test message.") Undefined)
  /\ createMessage (Tests.named "test-title") (Str "Test message.")
       (Obj [("note 1", Bool false); ("note 2", Int 0); ("note 3", Str "")])
     = createMessage (Tests.named "test-title") (Str "Test message.") Undefined.
Proof.
  split.
  - apply (proj1 (notes_suffix (Tests.named "test-title") (Str "Test message.")
                    [("note 1", Bool true); ("note 2", Bool false);
                     ("note 3", Int 1); ("note 4", Str "ok")]));
      reflexivity.
  - apply (proj2 (notes_suffix (Tests.named "test-title") (Str "Test message.")
                    [("note 1", Bool false); ("note 2", Int 0); ("note 3", Str "")]));
      reflexivity.
Defined.

(** C3 fails as stated: in [{b: true, 1: true}] the label [b] is inserted
    first, and the suffix lists [1] before it. *)
Lemma index_labels_come_first :
  distinct (map fst [("b", Bool true); ("1", Bool true)]) = true
  /\ truthy_entries [("b", Bool true); ("1", Bool true)] = ["b"; "1"]
  /\ createMessage (Tests.named "name") (Str "message")
       (Obj [("b", Bool true); ("1", Bool true)])
     = Some "[name] message (1, b)"
  /\ option_map
       (fun plain =>
          plain ++ suffix_of (truthy_entries [("b", Bool true); ("1", Bool true)]))
       (createMessage (Tests.named "name") (Str "message") Undefined)
     = Some "[name] message (b, 1)".
Proof. repeat split. Qed.

(** * C9 *)

(** C9.  For every operation that renders a message and every input it
    goes through with, the first argument of the console write and the
    [log_entry] of the remote payload are one string, which starts with the
    logger's bracketed display name and a space, goes on with the text of
    the message and ends with the suffix of the notes; the notes change
    nothing but that suffix, which is empty or [" (label, ...)"].  (The
    write is made when the text of the message converts to a string, the
    send when the key and the source do.) *)
Theorem message_starts_with_display_name (this : logger) (i : invocation) :
  truthy (required i) = true ->
  accepted i = true ->
  effects (invoke this i)
  = match text_of i with
    | None => []
    | Some text =>
        let entry :=
          displayName (name this) ++ " " ++ text ++ suffix_of (labels_of i) in
        Console (channel_of i) (arguments entry (attached i))
        :: match endpoint (bound this) with
           | None => []
           | Some url =>
               [Fetch (fetch (bound this)) url
                  (post (JSON_stringify
                           (payload (bound this) entry (attached i)
                              (level_of i))))]
           end
    end
  /\ forall message data notes,
       i = Log message data notes ->
       rendered this i
       = option_map (fun plain => plain ++ suffix_of (truthy_labels notes))
           (rendered this (Log message data Undefined)).
Proof.
  intros Hreq Hacc. split.
  - rewrite effects_table. unfold table, rendered. rewrite Hreq, Hacc; cbn [negb].
    destruct (text_of i) as [text|]; cbn [option_map]; [|reflexivity].
    cbv zeta. now destruct (endpoint (bound this)).
  - intros message data notes ->.
    rewrite <- !rendered_log. apply createMessage_notes.
Qed.

Lemma message_starts_with_display_name_witness :
  effects (invoke (Tests.named "one+two")
             (Log (Str "Message.") Undefined (Obj [("note", Bool true)])))
  = [Console console_log [Str "[one] [two] Message. (note)"];
     Fetch (injected 0)
       "https://api.logflare.app/logs?api_key=string&source=string"
       (post (JSON_stringify
                (payload Tests.fake "[one] [two] Message. (note)" None "info")))].
Proof.
  apply (proj1 (message_starts_with_display_name (Tests.named "one+two")
                  (Log (Str "Message.") Undefined (Obj [("note", Bool true)]))
                  eq_refl eq_refl)).
Defined.

(* ================================================================== *)
(** * Compound names *)
(* ================================================================== *)

Lemma split_not_nil (sep : ascii) (s : string) : split sep s <> [].
Proof.
  induction s as [|c s IH]; simpl; [discriminate|].
  destruct (Ascii.eqb c sep); [discriminate|].
  destruct (split sep s); discriminate.
Qed.

(** A string without the separator is one piece. *)
Lemma split_one_piece (sep : ascii) (s : string) :
  contains sep s = false -> split sep s = [s].
Proof.
  induction s as [|c s IH]; simpl; [reflexivity|].
  intros H; apply orb_false_iff in H as [Hc Hs].
  now rewrite Hc, (IH Hs).
Qed.

(** Splitting on either side of a separator. *)
Lemma split_around (sep : ascii) (a b : string) :
  split sep (a ++ String sep b) = (split sep a ++ split sep b)%list.
Proof.
  induction a as [|c a IH]; simpl.
  - now rewrite Ascii.eqb_refl.
  - destruct (Ascii.eqb c sep); rewrite IH; [reflexivity|].
    pose proof (split_not_nil sep a).
    destruct (split sep a); [contradiction|reflexivity].
Qed.

Lemma join_pieces (sep : string) (l1 l2 : list string) :
  l1 <> [] -> l2 <> [] ->
  join sep (l1 ++ l2) = join sep l1 ++ sep ++ join sep l2.
Proof.
  unfold join. intros H1 H2.
  induction l1 as [|x l1 IH]; [contradiction|].
  destruct l1 as [|y l1]; simpl in *.
  - destruct l2; [contradiction|reflexivity].
  - rewrite IH by discriminate. now rewrite !append_assoc.
Qed.

(** The display name of a compound name is made of the display names of
    its two parts. *)
Lemma displayName_compound (a b : string) :
  displayName (a ++ "+" ++ b) = displayName a ++ " " ++ displayName b.
Proof.
  unfold displayName. cbn [append]. rewrite split_around, map_app.
  apply join_pieces; intros H; apply map_eq_nil in H;
    now apply split_not_nil in H.
Qed.

Lemma displayName_simple (a : string) :
  contains "+" a = false -> displayName a = "[" ++ a ++ "]".
Proof. intros H. unfold displayName. now rewrite (split_one_piece _ _ H). Qed.

(** A new name is appended behind a ["+"], so the appended logger renders
    the segments of the old name and then those of the new one. *)
Lemma log_append_name (this : logger) (newName : value) (text : string)
  (w : world) :
  truthy newName = true ->
  ToString newName = Some text ->
  log_append this newName w
  = (Returns {| bound := bound this; name := name this ++ "+" ++ text |}, w)
  /\ displayName (name this ++ "+" ++ text)
     = displayName (name this) ++ " " ++ displayName text.
Proof.
  intros H Ht. split; [|apply displayName_compound].
  unfold log_append, falsy. rewrite H, Ht; cbn [negb].
  unfold bind, template, ret, configureLogger, falsy.
  now destruct (name this).
Qed.

(** A name that does not convert cannot be appended. *)
Lemma log_append_stubborn (this : logger) (newName : value) (w : world) :
  truthy newName = true ->
  ToString newName = None ->
  log_append this newName w = (Throws cannot_convert, w).
Proof.
  intros H Ht. unfold log_append, falsy. now rewrite H, Ht.
Qed.

(** * C4 *)

(** C4 (as amended).  For all non-empty names [a], [b] and [c] without a
    ["+"], [createLogger(a)] gives a logger, [append(b)] on it gives a new
    logger over the same configuration whose name is [a+b] and whose
    messages start with ["[a] [b] "], and [append(c)] on that one a logger
    whose messages start with ["[a] [b] [c] "]; no call has an effect, and
    the first logger, used after the appended one on a configuration whose
    key and source convert to strings, still writes ["[a] "] before its
    message.  (A ["+"] inside a name starts a bracketed segment of its
    own.) *)
Theorem append_compound_name (bnd : bindings) (a b c : string) (w : world) :
  truthy (Str a) = true -> truthy (Str b) = true -> truthy (Str c) = true ->
  contains "+" a = false -> contains "+" b = false -> contains "+" c = false ->
  let log_a := {| bound := bnd; name := a |} in
  let log_ab := {| bound := bnd; name := a ++ "+" ++ b |} in
  let log_abc := {| bound := bnd; name := (a ++ "+" ++ b) ++ "+" ++ c |} in
  configureLogger bnd (Str a) w = (Returns log_a, w)
  /\ log_append log_a (Str b) w = (Returns log_ab, w)
  /\ log_append log_ab (Str c) w = (Returns log_abc, w)
  /\ (forall message : value,
        createMessage log_a message Undefined
        = option_map (fun text => "[" ++ a ++ "] " ++ text) (ToString message)
        /\ createMessage log_ab message Undefined
           = option_map (fun text => "[" ++ a ++ "] [" ++ b ++ "] " ++ text)
               (ToString message)
        /\ createMessage log_abc message Undefined
           = option_map
               (fun text => "[" ++ a ++ "] [" ++ b ++ "] [" ++ c ++ "] " ++ text)
               (ToString message))
  /\ (forall message : string,
        truthy (Str message) = true ->
        addressable bnd = true ->
        writes (effects
                  (bind (configureLogger bnd (Str a)) (fun logOne =>
                   bind (log_append logOne (Str b)) (fun logTwo =>
                   bind (log logTwo (Str message) Undefined Undefined) (fun _ =>
                   log logOne (Str message) Undefined Undefined)))))
        = [(console_log, [Str ("[" ++ a ++ "] [" ++ b ++ "] " ++ message)]);
           (console_log, [Str ("[" ++ a ++ "] " ++ message)])]).
Proof.
  intros Ta Tb Tc Ha Hb Hc log_a log_ab log_abc.
  assert (Ea : forall w', configureLogger bnd (Str a) w' = (Returns log_a, w'))
    by (intros w'; unfold configureLogger, falsy; now rewrite Ta).
  assert (Eab : forall w', log_append log_a (Str b) w' = (Returns log_ab, w'))
    by (intros w'; now apply (log_append_name log_a (Str b) b)).
  assert (Eabc : log_append log_ab (Str c) w = (Returns log_abc, w))
    by (now apply (log_append_name log_ab (Str c) c)).
  assert (Ma : forall message : value,
             createMessage log_a message Undefined
             = option_map (fun text => "[" ++ a ++ "] " ++ text)
                 (ToString message)).
  { intros message. rewrite createMessage_plain; cbn [name log_a].
    destruct (ToString message); cbn [option_map]; [|reflexivity].
    now rewrite (displayName_simple _ Ha), !append_assoc. }
  assert (Mab : forall message : value,
             createMessage log_ab message Undefined
             = option_map (fun text => "[" ++ a ++ "] [" ++ b ++ "] " ++ text)
                 (ToString message)).
  { intros message. rewrite createMessage_plain; cbn [name log_ab].
    destruct (ToString message); cbn [option_map]; [|reflexivity].
    now rewrite displayName_compound, (displayName_simple _ Ha),
      (displayName_simple _ Hb), !append_assoc. }
  repeat split; auto.
  - rewrite createMessage_plain; cbn [name log_abc].
    destruct (ToString message); cbn [option_map]; [|reflexivity].
    now rewrite !displayName_compound, (displayName_simple _ Ha),
      (displayName_simple _ Hb), (displayName_simple _ Hc), !append_assoc.
  - intros message Tm Hadr. unfold effects, bind at 1 2.
    rewrite (Ea []), (Eab []). unfold bind.
    destruct (addressable_endpoint _ Hadr) as [url Hu].
    change (log log_ab (Str message) Undefined Undefined [])
      with (invoke log_ab (Log (Str message) Undefined Undefined) []).
    rewrite invoke_table.
    rewrite (table_through log_ab (Log (Str message) Undefined Undefined)
               ("[" ++ a ++ "] [" ++ b ++ "] " ++ message) url Tm eq_refl)
      by (try exact Hu; rewrite <- rendered_log, Mab; reflexivity).
    cbn [fst snd app].
    change (log log_a (Str message) Undefined Undefined)
      with (invoke log_a (Log (Str message) Undefined Undefined)).
    rewrite invoke_table.
    rewrite (table_through log_a (Log (Str message) Undefined Undefined)
               ("[" ++ a ++ "] " ++ message) url Tm eq_refl)
      by (try exact Hu; rewrite <- rendered_log, Ma; reflexivity).
    reflexivity.
Qed.

Lemma append_compound_name_witness :
  configureLogger Tests.fake (Str "one") []
  = (Returns (Tests.named "one"), [])
  /\ log_append (Tests.named "one") (Str "two") []
     = (Returns (Tests.named "one+two"), [])
  /\ log_append (Tests.named "one+two") (Str "three") []
     = (Returns (Tests.named "one+two+three"), [])
  /\ (forall message : value,
        createMessage (Tests.named "one") message Undefined
        = option_map (fun text => "[one] " ++ text) (ToString message)
        /\ createMessage (Tests.named "one+two") message Undefined
           = option_map (fun text => "[one] [two] " ++ text) (ToString message)
        /\ createMessage (Tests.named "one+two+three") message Undefined
           = option_map (fun text => "[one] [two] [three] " ++ text)
               (ToString message))
  /\ (forall message : string,
        truthy (Str message) = true ->
        addressable Tests.fake = true ->
        writes (effects
                  (bind (configureLogger Tests.fake (Str "one")) (fun logOne =>
                   bind (log_append logOne (Str "two")) (fun logTwo =>
                   bind (log logTwo (Str message) Undefined Undefined) (fun _ =>
                   log logOne (Str message) Undefined Undefined)))))
        = [(console_log, [Str ("[one] [two] " ++ message)]);
           (console_log, [Str ("[one] " ++ message)])]).
Proof.
  apply (append_compound_name Tests.fake "one" "two" "three" []); reflexivity.
Defined.

(** C4 fails as stated: for the names ["x+y"] and ["b"], the appended
    logger renders ["[x] [y] [b] "] and not ["[x+y] [b] "]. *)
Lemma plus_in_a_name_splits_it :
  truthy (Str "x+y") = true
  /\ configureLogger Tests.fake (Str "x+y") [] = (Returns (Tests.named "x+y"), [])
  /\ log_append (Tests.named "x+y") (Str "b") []
     = (Returns (Tests.named "x+y+b"), [])
  /\ createMessage (Tests.named "x+y+b") (Str "Message.") Undefined
     = Some "[x] [y] [b] Message."
  /\ "[" ++ "x+y" ++ "] [" ++ "b" ++ "] " ++ "Message." = "[x+y] [b] Message."
  /\ "[x] [y] [b] Message." <> "[x+y] [b] Message.".
Proof. repeat split; discriminate. Qed.

(* ================================================================== *)
(** * Display names *)
(* ================================================================== *)

(** X1.  The display name of a name is the name between two brackets with
    each ["+"] replaced by ["] ["], every other character kept as it is and
    in place. *)
Theorem displayName_rewrites_plus (name : string) :
  displayName name = "[" ++ plus_to_brackets name ++ "]".
Proof.
  unfold displayName.
  change ("[" ++ plus_to_brackets name ++ "]")
    with (String "[" (plus_to_brackets name ++ "]")).
  induction name as [|c name IH]; [reflexivity|].
  cbn [split plus_to_brackets].
  destruct (Ascii.eqb c "+").
  - pose proof (split_not_nil "+" name) as Hne.
    destruct (split "+" name) as [|piece pieces] eqn:E; [contradiction|].
    change (join " " (map (fun text => "[" ++ text ++ "]") ("" :: piece :: pieces)))
      with ("[]" ++ " "
              ++ join " " (map (fun text => "[" ++ text ++ "]") (piece :: pieces))).
    now rewrite IH.
  - destruct (split "+" name) as [|piece pieces] eqn:E.
    + now apply split_not_nil in E.
    + destruct pieces as [|next pieces];
        unfold join in *; cbn in *; now inversion IH.
Qed.

(* ================================================================== *)
(** * Creating and appending *)
(* ================================================================== *)

(** X2.  Appending two names one after the other gives what appending them
    at once, joined by ["+"], gives: for all truthy [b] and [c],
    [log.append(b).append(c)] is [log.append(`${b}+${c}`)], the same logger
    when both names convert to strings and the same type error when one
    does not. *)
Theorem append_twice_is_append_joined (this : logger) (b c : value) (w : world) :
  truthy b = true ->
  truthy c = true ->
  bind (log_append this b) (fun that => log_append that c) w
  = bind (template (match ToString b, ToString c with
                    | Some first, Some second => Some (first ++ "+" ++ second)
                    | _, _ => None
                    end))
      (fun joined => log_append this (Str joined)) w.
Proof.
  intros Tb Tc. unfold bind.
  destruct (ToString b) as [first|] eqn:Hb.
  - rewrite (proj1 (log_append_name this b first w Tb Hb)).
    destruct (ToString c) as [second|] eqn:Hc; cbn [template ret throw].
    + rewrite (proj1 (log_append_name _ c second w Tc Hc)); cbn [name bound].
      assert (T : truthy (Str (first ++ "+" ++ second)) = true)
        by (destruct first; reflexivity).
      rewrite (proj1 (log_append_name this _ _ w T eq_refl)).
      now rewrite append_assoc.
    + now rewrite (log_append_stubborn _ c w Tc Hc).
  - now rewrite (log_append_stubborn this b w Tb Hb).
Qed.

Lemma append_twice_is_append_joined_witness :
  bind (log_append (Tests.named "one") (Str "two"))
    (fun that => log_append that (Int 3)) []
  = bind (template (Some "two+3"))
      (fun joined => log_append (Tests.named "one") (Str joined)) [].
Proof.
  apply (append_twice_is_append_joined (Tests.named "one") (Str "two") (Int 3) []);
    reflexivity.
Defined.



(** X4.  Configuring the factory, creating a logger and appending a name
    never write to the console and never call [fetch], whether they return
    or throw. *)
Theorem factory_has_no_effect (arg : options_argument) (b : bindings)
  (this : logger) (n : value) (w : world) :
  snd (module_exports arg w) = w
  /\ snd (configureLogger b n w) = w
  /\ snd (log_append this n w) = w.
Proof.
  split; [|exact (naming_has_no_effect b this n w)].
  unfold module_exports.
  destruct arg; try reflexivity; now destruct (_ || _).
Qed.

(** X5.  Every logger that the factory hands out is configured: its four
    identity fields are truthy and its name is not empty; and a logger
    appended to a configured logger is configured. *)
Theorem loggers_stay_configured :
  (forall arg n w b w' this w'',
      module_exports arg w = (Returns b, w') ->
      configureLogger b n w' = (Returns this, w'') ->
      configured this = true)
  /\ (forall this n w that w',
         configured this = true ->
         log_append this n w = (Returns that, w') ->
         configured that = true).
Proof.
  split.
  - intros arg n w b w' this w'' Hb Hthis.
    assert (Hfields : truthy (application b) && truthy (key b)
                      && truthy (mode b) && truthy (source b) = true).
    { unfold module_exports, falsy in Hb.
      destruct arg as [| |o]; try discriminate Hb;
        match type of Hb with
        | context [truthy (opt_application ?o)] =>
            destruct (truthy (opt_application o)) eqn:Ha; [|discriminate Hb];
            destruct (truthy (opt_key o)) eqn:Hk; [|discriminate Hb];
            destruct (truthy (opt_mode o)) eqn:Hm; [|discriminate Hb];
            destruct (truthy (opt_source o)) eqn:Hs; [|discriminate Hb]
        end;
        cbn in Hb; inversion Hb; subst; clear Hb;
        cbn [application key mode source]; now rewrite ?Ha, ?Hk, ?Hm, ?Hs. }
    unfold configureLogger, falsy in Hthis.
    destruct (truthy n) eqn:Hn; [|discriminate Hthis].
    destruct n; try discriminate Hthis.
    inversion Hthis; subst; clear Hthis.
    unfold configured; cbn [bound name]. rewrite Hfields. exact Hn.
  - intros this n w that w' Hc Hthat.
    destruct (truthy n) eqn:Hn.
    + destruct (ToString n) as [text|] eqn:Ht.
      * rewrite (proj1 (log_append_name this n text w Hn Ht)) in Hthat.
        inversion Hthat; subst; clear Hthat.
        unfold configured in *; cbn [bound name].
        apply andb_true_iff in Hc as [Hfields _]. rewrite Hfields.
        now destruct (name this).
      * rewrite (log_append_stubborn this n w Hn Ht) in Hthat.
        discriminate Hthat.
    + unfold log_append, falsy in Hthat. rewrite Hn in Hthat.
      discriminate Hthat.
Qed.

Lemma loggers_stay_configured_witness :
  configured (Tests.named "name") = true
  /\ configured (Tests.named "name+two") = true.
Proof.
  split.
  - apply (proj1 loggers_stay_configured
             (object_argument
                {| opt_application := Str "test-app"; opt_key := Str "string";
                   opt_mode := Str "testing"; opt_source := Str "string";
                   opt_fetch := Some (injected 0) |})
             (Str "name") [] Tests.fake [] (Tests.named "name") []);
      reflexivity.
  - apply (proj2 loggers_stay_configured
             (Tests.named "name") (Str "two") [] (Tests.named "name+two") []);
      reflexivity.
Defined.

(* ================================================================== *)
(** * Logging, call after call *)
(* ================================================================== *)


(** X7.  Two calls do not interact.  When the first one returns, the world
    after the two is the world before them, then the effects of the first
    as if it had run alone, then those of the second as if it had run alone;
    so the same call made twice writes and sends twice.  When the first one
    throws, the second is not made. *)
Theorem calls_do_not_interact (one two : logger) (i j : invocation) (w : world) :
  bind (invoke one i) (fun _ => invoke two j) w
  = match result (invoke one i) with
    | Returns _ =>
        (result (invoke two j),
         (w ++ effects (invoke one i) ++ effects (invoke two j))%list)
    | Throws e => (Throws e, (w ++ effects (invoke one i))%list)
    end.
Proof.
  unfold bind. rewrite (invoke_frame one i w).
  destruct (result (invoke one i)); [|reflexivity].
  rewrite (invoke_frame two j). now rewrite <- app_assoc.
Qed.



(** X9.  Appending a name changes the name and nothing else: for a truthy
    new name that converts to a string, the appended logger is bound to the
    configuration of the logger it comes from, so whatever it is called
    with, its remote sends go through the same [fetch] to the same URL with
    the same method and headers as those of the first logger called the same
    way. *)
Theorem appended_logger_same_destination (this : logger) (newName : value)
  (text : string) (w : world) :
  truthy newName = true ->
  ToString newName = Some text ->
  let that := {| bound := bound this; name := name this ++ "+" ++ text |} in
  log_append this newName w = (Returns that, w)
  /\ forall i,
       map destination (sends (effects (invoke that i)))
       = map destination (sends (effects (invoke this i))).
Proof.
  intros Hn Ht that.
  split; [exact (proj1 (log_append_name this newName text w Hn Ht))|].
  intros i. rewrite !effects_table. unfold table, rendered; cbn [bound that].
  destruct (truthy (required i)); cbn [negb]; [|reflexivity].
  destruct (accepted i); cbn [negb]; [|reflexivity].
  destruct (text_of i); cbn [option_map]; [|reflexivity].
  now destruct (endpoint (bound this)).
Qed.

Lemma appended_logger_same_destination_witness :
  log_append (Tests.named "one") (Str "two") []
  = (Returns (Tests.named "one+two"), [])
  /\ forall i,
       map destination (sends (effects (invoke (Tests.named "one+two") i)))
       = map destination (sends (effects (invoke (Tests.named "one") i))).
Proof.
  apply (appended_logger_same_destination (Tests.named "one") (Str "two")
           "two" []);
    reflexivity.
Defined.

(** X10.  Notes that are falsy ([null], [0], the empty string, [false],
    [NaN]), a boolean or a number leave the message as it is: it is the one
    rendered without notes. *)
Theorem notes_without_labels (this : logger) (message notes : value) :
  negb (truthy notes)
  || type_eqb (typeof notes) t_boolean
  || type_eqb (typeof notes) t_number = true ->
  createMessage this message notes = createMessage this message Undefined.
Proof.
  intros H. rewrite createMessage_notes.
  assert (E : truthy_labels notes = []).
  { unfold truthy_labels.
    destruct notes as [| |b|n| |s|l|props|m st]; try reflexivity;
      cbn [typeof type_eqb orb] in H; try discriminate H.
    - now destruct b.
    - now destruct (truthy (Num n)).
    - rewrite !orb_false_r in H. apply negb_true_iff in H. now rewrite H. }
  rewrite E. destruct (createMessage this message Undefined); cbn; [|reflexivity].
  now rewrite append_empty.
Qed.

Lemma notes_without_labels_witness :
  createMessage (Tests.named "name") (Str "message") (Int 5)
  = createMessage (Tests.named "name") (Str "message") Undefined.
Proof.
  apply (notes_without_labels (Tests.named "name") (Str "message") (Int 5)).
  reflexivity.
Defined.



(** X12.  [log.error] of what [new Error(message)] returns, no property
    added: the console gets the display name with the error's message, and
    the error with its stack, and the send, made when the key and the source
    convert to strings, carries the same two; the remote [data] is written
    as [{"stack": ..., "error": {}}], the stack as a JSON string and the
    error as an empty object, since such an error has no enumerable
    property.  The [data] argument plays no part. *)
Theorem error_instance_is_sent_as_its_stack (this : logger)
  (message stack : string) (data : value) :
  let error := Err message stack in
  let metadata := Obj [("stack", Str stack); ("error", error)] in
  let entry := displayName (name this) ++ " " ++ message in
  effects (log_error this error data)
  = Console console_error [Str entry; metadata]
    :: match endpoint (bound this) with
       | None => []
       | Some url =>
           [Fetch (fetch (bound this)) url
              (post (JSON_stringify
                       (payload (bound this) entry (Some metadata) "error")))]
       end
  /\ JSON_stringify metadata
     = Some ("{" ++ QuoteJSONString "stack" ++ ":" ++ QuoteJSONString stack ++ ","
                 ++ QuoteJSONString "error" ++ ":{}}").
Proof.
  intros error metadata entry. split.
  2: { transitivity
         (Some ("{" ++ join ","
                         [QuoteJSONString "stack" ++ ":" ++ QuoteJSONString stack;
                          QuoteJSONString "error" ++ ":" ++ "{}"] ++ "}"));
         [reflexivity|].
       unfold join; cbn [String.concat].
       now rewrite !append_assoc. }
  change (log_error this error data) with (invoke this (LogError error data)).
  rewrite effects_table. unfold table, rendered.
  cbn [required accepted truthy typeof type_eqb orb negb error text_of
         labels_of suffix_of Get ToString option_map].
  cbn [String.eqb Ascii.eqb Bool.eqb ToString option_map].
  rewrite append_empty.
  now destruct (endpoint (bound this)).
Qed.

(* ================================================================== *)
(** * The text that is sent *)
(* ================================================================== *)





